(** * developerFolio: the portfolio chat widget

    A shallow embedding of [src/components/chatWidget/ChatWidget.js] and
    [src/chatConfig.js]: the React state of the [ChatWidget] component, its
    two event handlers [handleToggle] and [handleSubmit], and the settlement
    of the request that [handleSubmit] leaves in flight.

    Modelling conventions.
    - A JavaScript string is the list of its UTF-16 code units.
    - The four [useState] cells are the fields of [State].  A handler runs
      against the committed state (what its closure captured at the last
      render) and its [set...] calls are committed before the next event is
      delivered.
    - [handleSubmit] is an [async] function.  Its body up to the first
      [await] is [handleSubmit]; what runs once the awaited promises have
      settled is [handleSubmit_resume], which receives what the closure kept
      ([updatedHistory]) and what the network delivered.  Between the awaits
      the handler touches neither the state nor the store, so the
      continuation is one step of the event loop.
    - [console] calls and [fetch] calls are recorded in the [World]. *)

From Stdlib Require Import ZArith NArith Lia Ascii String SpecFloat.
From Stdlib Require Import DecimalString DecimalNat.
From stdpp Require Import base tactics option list.

Local Open Scope Z_scope.
Local Set Warnings "-register-all".

(** ** JavaScript strings *)

Module JsString.

(** UTF-16 code units. *)
Definition t := list N.

(** The code units of a literal that only has ASCII characters. *)
Definition units (s : string) : t :=
  List.map N_of_ascii (list_ascii_of_string s).

Definition eqb (a b : t) : bool := bool_decide (a = b).

(** WhiteSpace and LineTerminator of ECMAScript, the code points that
    [String.prototype.trim] strips. *)
Definition is_whitespace (c : N) : bool :=
  ((9 <=? c) && (c <=? 13) || (c =? 32) || (c =? 160) || (c =? 5760)
   || (8192 <=? c) && (c <=? 8202) || (c =? 8232) || (c =? 8233)
   || (c =? 8239) || (c =? 8287) || (c =? 12288) || (c =? 65279))%N.

Fixpoint trimStart (s : t) : t :=
  match s with
  | c :: s' => if is_whitespace c then trimStart s' else s
  | [] => []
  end.

Definition trimEnd (s : t) : t := rev (trimStart (rev s)).

Definition trim (s : t) : t := trimEnd (trimStart s).

(** [s.length > 0] *)
Definition nonempty (s : t) : bool :=
  match s with [] => false | _ :: _ => true end.

(** [s.startsWith(needle)] *)
Fixpoint startsWith (needle s : t) : bool :=
  match needle, s with
  | [], _ => true
  | _ :: _, [] => false
  | c :: needle', d :: s' => (c =? d)%N && startsWith needle' s'
  end.

(** [s.includes(needle)] *)
Fixpoint includes (needle s : t) : bool :=
  startsWith needle s ||
  match s with
  | [] => false
  | _ :: s' => includes needle s'
  end.

End JsString.

Abbreviation jsstring := JsString.t.
Abbreviation units := JsString.units.

(** ** Array.prototype.slice(start)

    One argument, so [end] is the length.  A negative [start] counts from the
    end and is clamped at 0; a positive one is clamped at the length. *)
Definition slice {A : Type} (start : Z) (l : list A) : list A :=
  let len := Z.of_nat (length l) in
  let k := if start <? 0 then Z.max (len + start) 0 else Z.min start len in
  drop (Z.to_nat k) l.

(** ** Turns of the conversation *)

(** The three role strings the component writes: ["system"], ["user"] and
    ["assistant"]. *)
Inductive Role := system | user | assistant.

#[global] Instance Role_eq_dec : EqDecision Role.
Proof. solve_decision. Defined.

Definition role_name (r : Role) : jsstring :=
  match r with
  | system => units "system"
  | user => units "user"
  | assistant => units "assistant"
  end.

(** An object literal [{ role, content }]. *)
Record Turn := { role : Role; content : jsstring }.

#[global] Instance Turn_eq_dec : EqDecision Turn.
Proof. solve_decision. Defined.

(** ** JSON values, as [response.json()] delivers them *)

(** A number is an IEEE double.  The own properties of an object are listed
    with their keys; a key is bound once. *)
Inductive JSValue :=
| JNull
| JBool (b : bool)
| JNumber (x : spec_float)
| JString (s : jsstring)
| JArray (items : list JSValue)
| JObject (props : list (jsstring * JSValue)).

(** ToBoolean *)
Definition truthy (v : JSValue) : bool :=
  match v with
  | JNull => false
  | JBool b => b
  | JNumber (S754_zero _) | JNumber S754_nan => false
  | JNumber _ => true
  | JString s => JsString.nonempty s
  | JArray _ | JObject _ => true
  end.

Fixpoint lookup_prop (key : jsstring) (props : list (jsstring * JSValue))
  : option JSValue :=
  match props with
  | [] => None
  | (k, v) :: rest => if JsString.eqb k key then Some v else lookup_prop key rest
  end.

(** [data.reply] for a truthy [data]; [None] is [undefined].  Only an object
    parsed from JSON can own a property of that name: on a boolean, a number,
    a string or an array the lookup ends in the prototype, which has none. *)
Definition get_reply (data : JSValue) : option JSValue :=
  match data with
  | JObject props => lookup_prop (units "reply") props
  | _ => None
  end.

(** ** src/chatConfig.js *)

Definition CHAT_WORKER_URL : jsstring := units "https://test/chat".

Definition CHAT_SYSTEM_PROMPT : jsstring :=
  units "You are an assistant for the portfolio of Saad Pasta. Be concise, helpful, and focused on his projects, experience, and skills.".

(** ** The component state *)

(** The four [useState] cells of [ChatWidget]. *)
Record State := {
  isOpen : bool;
  isSending : bool;
  input : jsstring;
  messages : list Turn
}.

(** [useState] initial values. *)
Definition initial_state : State :=
  {| isOpen := false;
     isSending := false;
     input := [];
     messages := [ {| role := system; content := CHAT_SYSTEM_PROMPT |} ] |}.

(** [const visibleMessages = messages.filter((m) => m.role !== "system")],
    evaluated at every render. *)
Definition visibleMessages (s : State) : list Turn :=
  filter (λ m, role m ≠ system) (messages s).

(** ** Promises, responses and what the handler throws *)

Inductive JSError :=
| HttpError (http_status : Z)      (* new Error(`HTTP ${response.status}`) *)
| Rejection (reason : jsstring).   (* what fetch, text() or json() rejected with *)

Inductive Settled (A : Type) :=
| Fulfilled (a : A)
| Rejected (error : JSError).
Arguments Fulfilled {A} a.
Arguments Rejected {A} error.

(** A [Response]: its status, and what [response.text()] and
    [response.json()] settle to.  [json] is rejected when the body is not
    JSON. *)
Record Response := {
  status : Z;
  text : Settled jsstring;
  json : Settled JSValue
}.

(** [response.ok]: the status is in the range 200-299. *)
Definition ok (r : Response) : bool := (200 <=? status r) && (status r <=? 299).

(** The argument of a [fetch] call; [body_messages] is the [messages] field
    of the object given to [JSON.stringify]. *)
Record Request := {
  url : jsstring;
  method : jsstring;
  headers : list (jsstring * jsstring);
  body_messages : list Turn
}.

Inductive LogEntry :=
| ErrorHttp (http_status : Z) (errorText : jsstring)
    (* console.error("[chat-worker] HTTP error", response.status, errorText) *)
| LogResponseJson (data : JSValue)
    (* console.log("[chat-worker] response json:", data) *)
| ErrorFetchFailed (error : JSError).
    (* console.error("[chat-worker] fetch failed:", error) *)

Definition is_console_error (e : LogEntry) : bool :=
  match e with
  | ErrorHttp _ _ | ErrorFetchFailed _ => true
  | LogResponseJson _ => false
  end.

(** What a suspended [handleSubmit] keeps in its closure and uses when it
    resumes. *)
Record Pending := { updatedHistory : list Turn }.

(** ** The world a handler runs in *)

Record World := {
  ui : State;
  console : list LogEntry;     (* oldest first *)
  network : list Request;      (* the fetch calls made, oldest first *)
  inflight : list Pending      (* handleSubmit invocations waiting on the network *)
}.

Definition initial_world : World :=
  {| ui := initial_state; console := []; network := []; inflight := [] |}.

Definition with_ui (f : State → State) (w : World) : World :=
  {| ui := f (ui w); console := console w; network := network w;
     inflight := inflight w |}.

(** *** Handlers as state transformers that may throw *)

Inductive Completion (A : Type) :=
| Normal (a : A)
| Throw (error : JSError).
Arguments Normal {A} a.
Arguments Throw {A} error.

Definition M (A : Type) : Type := World → World * Completion A.

#[global] Instance M_ret : MRet M := λ A a w, (w, Normal a).

#[global] Instance M_bind : MBind M := λ A B k m w,
  match m w with
  | (w', Normal a) => k a w'
  | (w', Throw e) => (w', Throw e)
  end.

Definition throw {A} (e : JSError) : M A := λ w, (w, Throw e).

(** [await p]: the value of a fulfilled promise, or its rejection thrown. *)
Definition await {A} (p : Settled A) : M A :=
  match p with
  | Fulfilled a => mret a
  | Rejected e => throw e
  end.

(** [try { body } catch (error) { handler } finally { finalizer }] *)
Definition try_catch_finally {A} (body : M A) (handler : JSError → M A)
    (finalizer : M unit) : M A :=
  λ w,
    let '(w1, c1) := body w in
    let '(w2, c2) := match c1 with
                     | Normal a => (w1, Normal a)
                     | Throw e => handler e w1
                     end in
    let '(w3, c3) := finalizer w2 in
    (w3, match c3 with Normal _ => c2 | Throw e => Throw e end).

(** The state setters. *)
Definition setIsOpen (f : bool → bool) : M unit :=
  λ w, (with_ui (λ s, {| isOpen := f (isOpen s); isSending := isSending s;
                         input := input s; messages := messages s |}) w,
        Normal tt).

Definition setIsSending (v : bool) : M unit :=
  λ w, (with_ui (λ s, {| isOpen := isOpen s; isSending := v;
                         input := input s; messages := messages s |}) w,
        Normal tt).

Definition setInput (v : jsstring) : M unit :=
  λ w, (with_ui (λ s, {| isOpen := isOpen s; isSending := isSending s;
                         input := v; messages := messages s |}) w,
        Normal tt).

(** [setMessages((prev) => f(prev))]; [setMessages(v)] is the constant
    updater. *)
Definition setMessages_with (f : list Turn → list Turn) : M unit :=
  λ w, (with_ui (λ s, {| isOpen := isOpen s; isSending := isSending s;
                         input := input s; messages := f (messages s) |}) w,
        Normal tt).

Definition setMessages (v : list Turn) : M unit := setMessages_with (λ _, v).

Definition console_write (e : LogEntry) : M unit :=
  λ w, ({| ui := ui w; console := console w ++ [e]; network := network w;
           inflight := inflight w |}, Normal tt).

(** [fetch(...)]: the request leaves. *)
Definition fetch (r : Request) : M unit :=
  λ w, ({| ui := ui w; console := console w; network := network w ++ [r];
           inflight := inflight w |}, Normal tt).

(** The handler stops at its first [await] and waits for the network. *)
Definition suspend (p : Pending) : M unit :=
  λ w, ({| ui := ui w; console := console w; network := network w;
           inflight := inflight w ++ [p] |}, Normal tt).

(** ** The handlers *)

Definition welcomeMessage : Turn :=
  {| role := assistant;
     content := units "Hi! I can help you understand Saad Pasta"
                  ++ 8217%N :: units "s projects, skills and experience." |}.

(** [handleToggle]; [render] is the state the closure captured. *)
Definition handleToggle (render : State) : M unit :=
  setIsOpen negb;;
  if negb (isOpen render) && (length (visibleMessages render) =? 0)%nat
  then setMessages_with (λ prev, prev ++ [welcomeMessage])
  else mret tt.

Definition fallbackReply : jsstring :=
  units "I am having trouble responding right now. Please try again in a moment.".

Definition connectionError : jsstring :=
  units "Connection error. Please check your network and try again.".

(** [handleSubmit] up to [await fetch(...)].  [event.preventDefault()] does
    not touch the state. *)
Definition handleSubmit (render : State) : M unit :=
  let trimmed := JsString.trim (input render) in
  if negb (JsString.nonempty trimmed) || isSending render then mret tt
  else
    setInput [];;
    let userMessage := {| role := user; content := trimmed |} in
    let updatedHistory := messages render ++ [userMessage] in
    setMessages updatedHistory;;
    setIsSending true;;
    let compactHistory := slice (-25) updatedHistory in
    fetch {| url := CHAT_WORKER_URL;
             method := units "POST";
             headers := [(units "Content-Type", units "application/json")];
             body_messages := compactHistory |};;
    suspend (Build_Pending updatedHistory).

(** The [replyText] conditional. *)
Definition replyText (data : JSValue) : jsstring :=
  if truthy data then
    match get_reply data with
    | Some (JString reply) =>
        if JsString.nonempty reply then reply else fallbackReply
    | _ => fallbackReply
    end
  else fallbackReply.

(** The [try] block from the point where [fetch] has settled to [net]. *)
Definition try_block (p : Pending) (net : Settled Response) : M unit :=
  response ← await net;
  if negb (ok response) then
    errorText ← await (text response);
    console_write (ErrorHttp (status response) errorText);;
    throw (HttpError (status response))
  else
    data ← await (json response);
    console_write (LogResponseJson data);;
    let assistantMessage := {| role := assistant; content := replyText data |} in
    setMessages (updatedHistory p ++ [assistantMessage]).

Definition catch_block (p : Pending) (error : JSError) : M unit :=
  console_write (ErrorFetchFailed error);;
  let errorMessage := {| role := assistant; content := connectionError |} in
  setMessages (updatedHistory p ++ [errorMessage]).

(** [handleSubmit] after the [await]s: [try]/[catch]/[finally]. *)
Definition handleSubmit_resume (p : Pending) (net : Settled Response) : M unit :=
  try_catch_finally (try_block p net) (catch_block p) (setIsSending false).

(** ** The event loop *)

Inductive Event :=
| Toggle                                      (* click on the floating button *)
| Change (value : jsstring)                   (* onChange of the textarea *)
| Submit                                      (* onSubmit of the form *)
| Settle (i : nat) (net : Settled Response).  (* the i-th request in flight settles *)

(** The state a handler leaves; an exception that escapes a handler changes
    nothing more. *)
Definition exec (m : M unit) (w : World) : World := (m w).1.

Definition resumed (i : nat) (w : World) : World :=
  {| ui := ui w; console := console w; network := network w;
     inflight := delete i (inflight w) |}.

Definition step (e : Event) (w : World) : World :=
  match e with
  | Toggle => exec (handleToggle (ui w)) w
  | Change value => exec (setInput value) w
  | Submit => exec (handleSubmit (ui w)) w
  | Settle i net =>
      match inflight w !! i with
      | Some p => exec (handleSubmit_resume p net) (resumed i w)
      | None => w
      end
  end.

Definition run (es : list Event) (w : World) : World :=
  foldl (λ w e, step e w) w es.

(** The worlds the widget can be in.  Every event is taken in every world;
    the rendered page delivers fewer (the form exists only while the popup is
    open and is disabled while a request is in flight), so what holds here
    holds there. *)
Inductive reachable : World → Prop :=
| reachable_init : reachable initial_world
| reachable_step e w : reachable w → reachable (step e w).

(** The events that write the input on the user's behalf. *)
Definition is_change (e : Event) : bool :=
  match e with
  | Change _ => true
  | Toggle | Submit | Settle _ _ => false
  end.

(** The guard of [handleSubmit] lets the submission through. *)
Definition submit_guard (s : State) : bool :=
  JsString.nonempty (JsString.trim (input s)) && negb (isSending s).

(** The visible list as the specification words it: the full sequence with
    every system turn removed, the others kept in their order. *)
Fixpoint without_system (l : list Turn) : list Turn :=
  match l with
  | [] => []
  | t :: l' =>
      match role t with
      | system => without_system l'
      | user | assistant => t :: without_system l'
      end
  end.

(** The specification's success condition on a parsed body: it is an object
    with a field [reply] that is a string and is not empty. *)
Definition has_reply_text (data : JSValue) : bool :=
  match data with
  | JObject props =>
      match lookup_prop (units "reply") props with
      | Some (JString s) => negb (bool_decide (s = []))
      | _ => false
      end
  | _ => false
  end.

(** ** Reachable worlds: the invariant *)

(** The turn [useState] starts the store with. *)
Definition system_turn : Turn :=
  {| role := system; content := CHAT_SYSTEM_PROMPT |}.

(** Either nothing is in flight and the widget is idle, or exactly one
    request is, the widget is busy, the store still holds what the suspended
    handler kept, and something is visible. *)
Definition single_flight (w : World) : Prop :=
  match inflight w with
  | [] => isSending (ui w) = false
  | [p] => isSending (ui w) = true
           ∧ messages (ui w) = updatedHistory p
           ∧ visibleMessages (ui w) ≠ []
  | _ :: _ :: _ => False
  end.

Definition starts_with_system (w : World) : Prop :=
  head (messages (ui w)) = Some system_turn.

Definition invariant (w : World) : Prop :=
  starts_with_system w ∧ single_flight w.

(** The history [handleSubmit] builds from the committed state:
    [[...messages, userMessage]]. *)
Definition history_with_input (s : State) : list Turn :=
  messages s ++ [ {| role := user; content := JsString.trim (input s) |} ].

(** ** Worlds and responses the examples use *)

(** The widget opened, "Hello" typed, not yet submitted. *)
Definition hello_typed : World :=
  run [Toggle; Change (units "Hello")] initial_world.

(** "Hello" submitted, the request in flight. *)
Definition hello_submitted : World := step Submit hello_typed.

Definition hello_history : list Turn :=
  [system_turn; welcomeMessage; {| role := user; content := units "Hello" |}].

Definition http_500 : Response :=
  {| status := 500;
     text := Fulfilled (units "Internal Server Error");
     json := Rejected (Rejection (units "SyntaxError")) |}.

Definition http_200_not_json : Response :=
  {| status := 200;
     text := Fulfilled (units "<html></html>");
     json := Rejected (Rejection (units "SyntaxError")) |}.

Definition http_200_empty_reply : Response :=
  {| status := 200;
     text := Fulfilled (units "{}");
     json := Fulfilled (JObject [(units "reply", JString [])]) |}.

Definition hi_there : Response :=
  {| status := 200;
     text := Fulfilled (units "{}");
     json := Fulfilled (JObject [(units "reply", JString (units "Hi there"))]) |}.

(** An idle world that stores 29 turns, with "Hello" typed. *)
Definition long_conversation : World :=
  {| ui := {| isOpen := true; isSending := false; input := units "Hello";
              messages :=
                system_turn
                  :: mjoin (replicate 14
                       [ {| role := user; content := units "ping" |};
                         {| role := assistant; content := units "pong" |} ]) |};
     console := []; network := []; inflight := [] |}.

(** ** What the component renders *)

(** An array index in a template literal: its decimal digits. *)
Definition index_string (index : nat) : jsstring :=
  units (NilEmpty.string_of_uint (Nat.to_uint index)).

(** One [<div key=... className=...>] of the message list, with the text its
    [ReactMarkdown] child receives. *)
Record MessageRow := {
  key : jsstring;
  className : jsstring;
  markdown : jsstring
}.

(** The callback of [visibleMessages.map((msg, index) => ...)]. *)
Definition message_row (index : nat) (msg : Turn) : MessageRow :=
  {| key := role_name (role msg) ++ units "-" ++ index_string index;
     className :=
       units "lh-msg "
         ++ (if bool_decide (role msg = user)
             then units "lh-msg--user" else units "lh-msg--bot");
     markdown := content msg |}.

(** What the popup shows of the state: the message rows, the textarea and
    the submit button. *)
Record Popup := {
  rows : list MessageRow;
  textarea_value : jsstring;
  textarea_disabled : bool;
  submit_disabled : bool;
  submit_label : jsstring
}.

(** [{isOpen && (<div className="lh-chat" ...>)}]: the popup, when it is
    rendered.  The floating button is always rendered. *)
Definition render (s : State) : option Popup :=
  if isOpen s then
    Some {| rows := imap message_row (visibleMessages s);
            textarea_value := input s;
            textarea_disabled := isSending s;
            submit_disabled := isSending s;
            submit_label := if isSending s then [8230%N] else units "Send" |}
  else None.

(** *** The auto-scroll effect

    [useEffect(() => { ... }, [visibleMessages.length])] between the render
    of [prev] and the render of [next]: the effect runs when its dependency
    changed. *)
Definition effect_runs (prev next : State) : bool :=
  negb (length (visibleMessages prev) =? length (visibleMessages next))%nat.

(** [messagesEndRef.current] when the effect runs after the render of [s]:
    the ref is attached to the message list, which exists while the popup is
    rendered. *)
Definition ref_attached (s : State) : bool := isOpen s.

(** The effect reaches [scrollTop = scrollHeight]: it runs and does not
    return at [if (!messagesEndRef.current) return]. *)
Definition scrolls_to_bottom (prev next : State) : bool :=
  effect_runs prev next && ref_attached next.

(** ** The shape of a stored conversation *)

Definition whitespace (c : N) : Prop := JsString.is_whitespace c = true.

(** No whitespace at either end. *)
Definition no_outer_whitespace (s : jsstring) : Prop :=
  (∀ c, head s = Some c → JsString.is_whitespace c = false)
  ∧ (∀ c, last s = Some c → JsString.is_whitespace c = false).

(** The system turn, then turns that are not system turns, none empty, no
    two neighbours of the same role, user turns trimmed. *)
Inductive conversation : list Turn → Prop :=
| conversation_start : conversation [system_turn]
| conversation_turn l t :
    conversation l →
    role t ≠ system →
    content t ≠ [] →
    (role t = user → no_outer_whitespace (content t)) →
    (∀ t', last l = Some t' → role t' ≠ role t) →
    conversation (l ++ [t]).

(** The last stored turn is a user turn exactly while the widget is busy. *)
Definition awaiting_reply (w : World) : Prop :=
  isSending (ui w) = true ↔ role <$> last (messages (ui w)) = Some user.

(** What holds of the store, the flag and the requests made in every world
    the widget reaches. *)
Definition conversation_shape (w : World) : Prop :=
  conversation (messages (ui w))
  ∧ awaiting_reply w
  ∧ length (network w) = length (filter (λ t, role t = user) (messages (ui w))).

(** A request as [handleSubmit] builds it. *)
Definition well_formed_request (req : Request) : Prop :=
  url req = CHAT_WORKER_URL
  ∧ method req = units "POST"
  ∧ headers req = [(units "Content-Type", units "application/json")]
  ∧ (1 ≤ length (body_messages req) ≤ 25)%nat
  ∧ ∃ c, last (body_messages req) = Some {| role := user; content := c |}
         ∧ c ≠ [] ∧ no_outer_whitespace c.

Definition is_toggle (e : Event) : bool :=
  match e with
  | Toggle => true
  | Change _ | Submit | Settle _ _ => false
  end.

(** Twelve questions asked and answered after the first open, and "Hello"
    typed: 26 turns stored. *)
Definition long_chat_events : list Event :=
  Toggle
    :: mjoin (replicate 12
         [Change (units "ping"); Submit; Settle 0 (Fulfilled hi_there)])
    ++ [Change (units "Hello")].

(** * Properties *)

Ltac unfold_handlers :=
  cbv [step exec handleToggle handleSubmit handleSubmit_resume
       try_catch_finally try_block catch_block
       mbind M_bind mret M_ret await throw
       console_write fetch suspend resumed
       setIsOpen setIsSending setInput setMessages setMessages_with with_ui].

(** ** The two halves of [handleSubmit] in closed form *)

Section Closed_forms.

Implicit Types (w : World) (p : Pending) (net : Settled Response).

Lemma handleSubmit_rejected w :
  submit_guard (ui w) = false →
  handleSubmit (ui w) w = (w, Normal tt).
Proof.
  unfold submit_guard. unfold_handlers. intros Hg.
  destruct (JsString.nonempty _), (isSending _); simpl in *; congruence.
Qed.

Lemma handleSubmit_accepted w :
  submit_guard (ui w) = true →
  let trimmed := JsString.trim (input (ui w)) in
  let history := messages (ui w) ++ [ {| role := user; content := trimmed |} ] in
  handleSubmit (ui w) w =
    ({| ui := {| isOpen := isOpen (ui w); isSending := true; input := [];
                 messages := history |};
        console := console w;
        network := network w ++
          [ {| url := CHAT_WORKER_URL; method := units "POST";
               headers := [(units "Content-Type", units "application/json")];
               body_messages := slice (-25) history |} ];
        inflight := inflight w ++ [ {| updatedHistory := history |} ] |},
     Normal tt).
Proof.
  unfold submit_guard. unfold_handlers. intros Hg.
  destruct (JsString.nonempty _), (isSending _); simpl in *; congruence.
Qed.

(** Whatever the network delivers, the continuation completes normally,
    stores [updatedHistory] followed by one assistant turn, clears
    [isSending], only adds to the console and touches nothing else. *)
Lemma handleSubmit_resume_closed p net w :
  ∃ t log,
    handleSubmit_resume p net w =
      ({| ui := {| isOpen := isOpen (ui w); isSending := false;
                   input := input (ui w);
                   messages := updatedHistory p ++ [t] |};
          console := console w ++ log;
          network := network w;
          inflight := inflight w |},
       Normal tt)
    ∧ role t = assistant.
Proof.
  unfold_handlers.
  destruct net as [r|e]; simpl.
  - destruct (ok r); simpl.
    + destruct (json r) as [data|e]; simpl.
      * eexists _, [_]. split; [reflexivity|done].
      * eexists _, [_]. split; [reflexivity|done].
    + destruct (text r) as [body|e]; simpl.
      * eexists _, [_; _]. rewrite <- app_assoc. split; [reflexivity|done].
      * eexists _, [_]. split; [reflexivity|done].
  - eexists _, [_]. split; [reflexivity|done].
Qed.

End Closed_forms.

(** ** One step of the event loop in closed form *)

Section Steps.

Implicit Types (w : World) (p : Pending) (net : Settled Response).

Lemma step_Toggle w :
  step Toggle w =
    {| ui := {| isOpen := negb (isOpen (ui w));
                isSending := isSending (ui w);
                input := input (ui w);
                messages :=
                  if negb (isOpen (ui w))
                     && bool_decide (visibleMessages (ui w) = [])
                  then messages (ui w) ++ [welcomeMessage]
                  else messages (ui w) |};
       console := console w; network := network w; inflight := inflight w |}.
Proof.
  unfold_handlers.
  destruct (visibleMessages (ui w)) as [|v vs] eqn:Hv; simpl;
    destruct (isOpen (ui w)); reflexivity.
Qed.

Lemma step_Change value w :
  step (Change value) w =
    {| ui := {| isOpen := isOpen (ui w); isSending := isSending (ui w);
                input := value; messages := messages (ui w) |};
       console := console w; network := network w; inflight := inflight w |}.
Proof. reflexivity. Qed.

Lemma step_Submit_rejected w :
  submit_guard (ui w) = false → step Submit w = w.
Proof.
  intros Hg. unfold step, exec. by rewrite handleSubmit_rejected.
Qed.

Lemma step_Submit_accepted w :
  submit_guard (ui w) = true →
  let history :=
    messages (ui w)
      ++ [ {| role := user; content := JsString.trim (input (ui w)) |} ] in
  step Submit w =
    {| ui := {| isOpen := isOpen (ui w); isSending := true; input := [];
                messages := history |};
       console := console w;
       network := network w ++
         [ {| url := CHAT_WORKER_URL; method := units "POST";
              headers := [(units "Content-Type", units "application/json")];
              body_messages := slice (-25) history |} ];
       inflight := inflight w ++ [ {| updatedHistory := history |} ] |}.
Proof.
  intros Hg. unfold step, exec. by rewrite handleSubmit_accepted.
Qed.

Lemma step_Settle_none w i net :
  inflight w !! i = None → step (Settle i net) w = w.
Proof. intros Hi. unfold step. by rewrite Hi. Qed.

Lemma step_Settle_some w i p net :
  inflight w !! i = Some p →
  ∃ t log,
    step (Settle i net) w =
      {| ui := {| isOpen := isOpen (ui w); isSending := false;
                  input := input (ui w);
                  messages := updatedHistory p ++ [t] |};
         console := console w ++ log;
         network := network w;
         inflight := delete i (inflight w) |}
    ∧ role t = assistant.
Proof.
  intros Hi. unfold step, exec. rewrite Hi.
  destruct (handleSubmit_resume_closed p net (resumed i w)) as (t & log & -> & Ht).
  by exists t, log.
Qed.

End Steps.

(** ** Reachable worlds *)

Lemma head_snoc {A} (l : list A) (x y : A) :
  head l = Some x → head (l ++ [y]) = Some x.
Proof. by destruct l. Qed.

Lemma visible_snoc_user (l : list Turn) (c : jsstring) :
  filter (λ m, role m ≠ system) (l ++ [ {| role := user; content := c |} ]) ≠ [].
Proof.
  rewrite filter_app. intros [_ H]%app_eq_nil. cbv in H.
  discriminate H.
Qed.

Lemma invariant_init : invariant initial_world.
Proof. by split. Qed.

Lemma invariant_step e w : invariant w → invariant (step e w).
Proof.
  intros [Hhead Hflight]. unfold starts_with_system, single_flight in *.
  destruct e as [|value| |i net].
  - (* Toggle *)
    rewrite step_Toggle. split; simpl.
    + unfold starts_with_system; simpl.
      destruct (_ && _); [by apply head_snoc|done].
    + unfold single_flight, visibleMessages in *; simpl.
      destruct (inflight w) as [|p [|]]; [| |done].
      * done.
      * destruct Hflight as (? & ? & Hvis).
        rewrite bool_decide_eq_false_2 by done.
        by rewrite andb_false_r.
  - (* Change *)
    rewrite step_Change. by split.
  - (* Submit *)
    destruct (submit_guard (ui w)) eqn:Hg.
    + rewrite step_Submit_accepted by done.
      split; [by apply head_snoc|].
      unfold submit_guard in Hg. apply andb_true_iff in Hg as [_ Hidle].
      apply negb_true_iff in Hidle.
      unfold single_flight; simpl.
      destruct (inflight w) as [|p [|]]; simpl.
      * split; [done|]. split; [done|]. apply visible_snoc_user.
      * destruct Hflight as (Hbusy & _). congruence.
      * done.
    + rewrite step_Submit_rejected by done. by split.
  - (* Settle *)
    destruct (inflight w !! i) as [p|] eqn:Hi.
    + destruct (step_Settle_some w i p net Hi) as (t & log & -> & _).
      destruct (inflight w) as [|q [|]] eqn:Hfl; [done| |done].
      destruct i; [|done]. injection Hi as ->.
      destruct Hflight as (_ & Hm & _).
      split; [|done].
      unfold starts_with_system; simpl. rewrite <- Hm. by apply head_snoc.
    + rewrite step_Settle_none by done. by split.
Qed.

Lemma reachable_invariant w : reachable w → invariant w.
Proof.
  induction 1 as [|e w _ IH]; [apply invariant_init|by apply invariant_step].
Qed.

Lemma run_snoc es e w : run (es ++ [e]) w = step e (run es w).
Proof. unfold run. by rewrite foldl_app. Qed.

Lemma reachable_run es : reachable (run es initial_world).
Proof.
  induction es as [|e es IH] using rev_ind.
  - apply reachable_init.
  - rewrite run_snoc. by apply reachable_step.
Qed.

Lemma reachable_is_run w : reachable w → ∃ es, w = run es initial_world.
Proof.
  induction 1 as [|e w _ [es ->]].
  - by exists [].
  - exists (es ++ [e]). by rewrite run_snoc.
Qed.

(** ** The reply text *)

Lemma replyText_fallback data :
  has_reply_text data = false → replyText data = fallbackReply.
Proof.
  unfold replyText, has_reply_text, get_reply. intros Hdata.
  destruct data as [|b|x|s|items|props].
  - done.
  - by destruct b.
  - by destruct x.
  - by destruct s.
  - done.
  - simpl in *.
    destruct (lookup_prop _ props) as [[| | |s| |]|]; try done.
    by destruct s.
Qed.

Lemma replyText_reply data :
  has_reply_text data = true →
  get_reply data = Some (JString (replyText data)).
Proof.
  unfold replyText, has_reply_text, get_reply. intros Hdata.
  destruct data as [|b|x|s|items|props]; try done.
  simpl in *.
  destruct (lookup_prop _ props) as [[| | |s| |]|]; try done.
  by destruct s.
Qed.

(** ** The [finally] block *)

(** Whatever the [try] and [catch] blocks do, also when they throw, the
    [finally] block leaves [isSending] false. *)
Lemma finally_clears_isSending (body : M unit) (handler : JSError → M unit) w :
  isSending (ui (try_catch_finally body handler (setIsSending false) w).1) = false.
Proof.
  unfold try_catch_finally.
  destruct (body w) as [w1 [[]|e]]; [done|].
  by destruct (handler e w1) as [w2 c2].
Qed.

(** ** The scenarios of the specification, run on the model *)

(** A fresh store shows nothing; opening the widget seeds the greeting. *)
Example scenario_first_open :
  visibleMessages (ui initial_world) = []
  ∧ visibleMessages (ui (step Toggle initial_world)) = [welcomeMessage].
Proof. by vm_compute. Qed.

(** "Hello" submitted and answered with [{reply: "Hi there"}]. *)
Example scenario_reply :
  visibleMessages (ui (step (Settle 0 (Fulfilled hi_there)) hello_submitted))
    = [ welcomeMessage;
        {| role := user; content := units "Hello" |};
        {| role := assistant; content := units "Hi there" |} ]
  ∧ isSending (ui (step (Settle 0 (Fulfilled hi_there)) hello_submitted)) = false.
Proof. by vm_compute. Qed.

(** "Hello" submitted and [fetch] rejected. *)
Example scenario_network_exception :
  last (visibleMessages
          (ui (step (Settle 0 (Rejected (Rejection (units "TypeError"))))
                 hello_submitted)))
    = Some {| role := assistant; content := connectionError |}.
Proof. by vm_compute. Qed.

(** "World" submitted while "Hello" is in flight: dropped. *)
Example scenario_second_submit_while_busy :
  step Submit (step (Change (units "World")) hello_submitted)
    = step (Change (units "World")) hello_submitted.
Proof. by vm_compute. Qed.

(** ** Claims *)

(** C1, as the specification states it, fails: after "Hello" is submitted, an
    HTTP 500 response, and likewise an HTTP 200 response whose body is not
    JSON, ends the conversation with the connection-error text, which is not
    the "trouble responding" text. *)
Lemma C1_error_response_counterexample :
  last (messages (ui (step (Settle 0 (Fulfilled http_500)) hello_submitted)))
    = Some {| role := assistant; content := connectionError |}
  ∧ last (messages (ui (step (Settle 0 (Fulfilled http_200_not_json))
                          hello_submitted)))
    = Some {| role := assistant; content := connectionError |}
  ∧ connectionError ≠ fallbackReply
  ∧ JsString.includes (units "trouble responding") connectionError = false.
Proof. repeat split; by vm_compute. Qed.

(** C1, amended: a request that receives a response with a status outside
    200-299, or a response whose body [json()] cannot parse, gets the
    connection-error text as its assistant turn, the same text as a request
    the network failed. *)
Theorem C1_error_response_gets_connection_error
    (w : World) (i : nat) (p : Pending) (r : Response) :
  inflight w !! i = Some p →
  ok r = false ∨ (∃ e, json r = Rejected e) →
  messages (ui (step (Settle i (Fulfilled r)) w))
    = updatedHistory p ++ [ {| role := assistant; content := connectionError |} ].
Proof.
  intros Hi Hr. unfold step. rewrite Hi. unfold_handlers. simpl.
  destruct (ok r); simpl.
  - destruct Hr as [?|[e ->]]; [done|]. reflexivity.
  - by destruct (text r).
Qed.

Lemma C1_error_response_witness :
  messages (ui (step (Settle 0 (Fulfilled http_500)) hello_submitted))
    = hello_history ++ [ {| role := assistant; content := connectionError |} ].
Proof.
  apply (C1_error_response_gets_connection_error
           hello_submitted 0 {| updatedHistory := hello_history |} http_500).
  - reflexivity.
  - left. reflexivity.
Defined.

(** C2: when the response is 2xx and its body parses as JSON but is not an
    object with a non-empty string [reply], the assistant turn carries the
    fallback text; the [try] block completes normally, so the [catch] block
    is not entered and nothing is written with [console.error]; the fallback
    text contains "having trouble responding" and differs from the
    connection-error text. *)
Theorem C2_fallback_reply
    (w : World) (i : nat) (p : Pending) (r : Response) (data : JSValue) :
  inflight w !! i = Some p →
  ok r = true →
  json r = Fulfilled data →
  has_reply_text data = false →
  messages (ui (step (Settle i (Fulfilled r)) w))
    = updatedHistory p ++ [ {| role := assistant; content := fallbackReply |} ]
  ∧ (try_block p (Fulfilled r) (resumed i w)).2 = Normal tt
  ∧ console (step (Settle i (Fulfilled r)) w) = console w ++ [LogResponseJson data]
  ∧ is_console_error (LogResponseJson data) = false
  ∧ JsString.includes (units "having trouble responding") fallbackReply = true
  ∧ fallbackReply ≠ connectionError.
Proof.
  intros Hi Hok Hjson Hdata.
  apply replyText_fallback in Hdata.
  unfold step. rewrite Hi. unfold_handlers. simpl.
  rewrite Hok, Hjson. simpl. rewrite Hdata.
  repeat split; by vm_compute.
Qed.

Lemma C2_fallback_reply_witness :
  messages (ui (step (Settle 0 (Fulfilled http_200_empty_reply)) hello_submitted))
    = hello_history ++ [ {| role := assistant; content := fallbackReply |} ].
Proof.
  apply (C2_fallback_reply
           hello_submitted 0 {| updatedHistory := hello_history |}
           http_200_empty_reply (JObject [(units "reply", JString [])]));
    reflexivity.
Defined.

(** C3: from any world the widget can reach, a step that takes it from busy
    to idle, or that settles a request in flight (whatever the network
    delivered), leaves the stored turns in place and adds exactly one turn
    after them, an assistant turn. *)
Theorem C3_exactly_one_reply (es : list Event) (e : Event) :
  (isSending (ui (run es initial_world)) = true
   ∧ isSending (ui (step e (run es initial_world))) = false)
  ∨ (∃ i net p, e = Settle i net ∧ inflight (run es initial_world) !! i = Some p) →
  ∃ t, role t = assistant
       ∧ messages (ui (step e (run es initial_world)))
         = messages (ui (run es initial_world)) ++ [t]
       ∧ isSending (ui (run es initial_world)) = true
       ∧ isSending (ui (step e (run es initial_world))) = false.
Proof.
  pose proof (reachable_invariant _ (reachable_run es)) as [_ Hflight].
  set (w := run es initial_world) in *. clearbody w.
  unfold single_flight in Hflight.
  assert (∀ i net p, inflight w !! i = Some p →
    ∃ t, role t = assistant
         ∧ messages (ui (step (Settle i net) w)) = messages (ui w) ++ [t]
         ∧ isSending (ui w) = true
         ∧ isSending (ui (step (Settle i net) w)) = false) as Hsettle.
  { intros i net p Hi.
    destruct (step_Settle_some w i p net Hi) as (t & log & -> & Ht).
    destruct (inflight w) as [|q [|]]; [done| |done].
    destruct i; [|done]. injection Hi as ->.
    destruct Hflight as (Hbusy & -> & _). by exists t. }
  intros [[Hbusy Hidle]|(i & net & p & -> & Hi)]; [|by eapply Hsettle].
  destruct e as [|value| |i net].
  - rewrite step_Toggle in Hidle. simpl in Hidle. congruence.
  - rewrite step_Change in Hidle. simpl in Hidle. congruence.
  - rewrite step_Submit_rejected in Hidle; [congruence|].
    unfold submit_guard. rewrite Hbusy. apply andb_false_r.
  - destruct (inflight w !! i) as [p|] eqn:Hi; [by eapply Hsettle|].
    rewrite step_Settle_none in Hidle by done. congruence.
Qed.

Lemma C3_exactly_one_reply_witness :
  ∃ t, role t = assistant
       ∧ messages (ui (step (Settle 0 (Fulfilled http_500))
                         (run [Toggle; Change (units "Hello"); Submit] initial_world)))
         = messages (ui (run [Toggle; Change (units "Hello"); Submit] initial_world))
             ++ [t]
       ∧ isSending (ui (run [Toggle; Change (units "Hello"); Submit] initial_world))
         = true
       ∧ isSending (ui (step (Settle 0 (Fulfilled http_500))
                          (run [Toggle; Change (units "Hello"); Submit] initial_world)))
         = false.
Proof.
  apply (C3_exactly_one_reply
           [Toggle; Change (units "Hello"); Submit] (Settle 0 (Fulfilled http_500))).
  left. split; reflexivity.
Defined.

(** C4: a submission that passes the guard makes the widget busy and leaves
    one request in flight; whenever that request settles, whether [fetch]
    rejected, the body could not be read or parsed, or a reply came, the
    continuation completes and [isSending] is false afterwards. *)
Theorem C4_busy_flag_cleared (w : World) :
  submit_guard (ui w) = true →
  isSending (ui (step Submit w)) = true
  ∧ ∃ p, inflight (step Submit w) = inflight w ++ [p]
         ∧ ∀ w' i net,
             inflight w' !! i = Some p →
             isSending (ui (step (Settle i net) w')) = false
             ∧ (handleSubmit_resume p net (resumed i w')).2 = Normal tt.
Proof.
  intros Hg. rewrite step_Submit_accepted by done. simpl.
  split; [done|]. eexists. split; [done|].
  intros w' i net Hi. split.
  - unfold step, exec. rewrite Hi. apply finally_clears_isSending.
  - match type of Hi with
    | _ = Some ?p =>
        by destruct (handleSubmit_resume_closed p net (resumed i w'))
          as (t & log & -> & _)
    end.
Qed.

Lemma C4_busy_flag_cleared_witness :
  isSending (ui (step Submit hello_typed)) = true
  ∧ ∃ p, inflight (step Submit hello_typed) = inflight hello_typed ++ [p]
         ∧ ∀ w' i net,
             inflight w' !! i = Some p →
             isSending (ui (step (Settle i net) w')) = false
             ∧ (handleSubmit_resume p net (resumed i w')).2 = Normal tt.
Proof. apply (C4_busy_flag_cleared hello_typed). reflexivity. Defined.

(** C5: when the trimmed input is empty or the widget is busy,
    [handleSubmit] returns at once: the state (turns, input, flags), the
    requests made, the requests in flight and the console are what they
    were. *)
Theorem C5_rejected_submit_is_noop (w : World) :
  JsString.trim (input (ui w)) = [] ∨ isSending (ui w) = true →
  handleSubmit (ui w) w = (w, Normal tt) ∧ step Submit w = w.
Proof.
  intros Hg.
  assert (submit_guard (ui w) = false) as Hguard.
  { unfold submit_guard. destruct Hg as [-> | ->]; [done|apply andb_false_r]. }
  split; [by apply handleSubmit_rejected|by apply step_Submit_rejected].
Qed.

Lemma C5_rejected_submit_blank_witness :
  step Submit (run [Toggle; Change (units "   ")] initial_world)
    = run [Toggle; Change (units "   ")] initial_world.
Proof.
  apply (C5_rejected_submit_is_noop (run [Toggle; Change (units "   ")] initial_world)).
  left. reflexivity.
Defined.

Lemma slice_last_25 {A} (l : list A) :
  slice (-25) l = drop (length l - Nat.min (length l) 25) l.
Proof. unfold slice. simpl. f_equal. lia. Qed.

Lemma inflight_last (w : World) (p : Pending) :
  (inflight w ++ [p]) !! length (inflight w) = Some p.
Proof. by rewrite list_lookup_middle. Qed.

(** C6: the request a submission sends carries the last min(n, 25) turns of
    the n-turn history (the stored turns and the new user turn), in their
    order; the store keeps all n, also once the request has settled; with
    n = 30 the request carries the last 25. *)
Theorem C6_payload_is_last_25 (w : World) :
  submit_guard (ui w) = true →
  messages (ui (step Submit w)) = history_with_input (ui w)
  ∧ (∃ req,
       network (step Submit w) = network w ++ [req]
       ∧ url req = CHAT_WORKER_URL
       ∧ body_messages req
         = drop (length (history_with_input (ui w))
                 - Nat.min (length (history_with_input (ui w))) 25)
             (history_with_input (ui w))
       ∧ length (body_messages req)
         = Nat.min (length (history_with_input (ui w))) 25
       ∧ (length (history_with_input (ui w)) = 30%nat →
          body_messages req = drop 5 (history_with_input (ui w))
          ∧ length (body_messages req) = 25%nat))
  ∧ ∀ net,
      take (length (history_with_input (ui w)))
        (messages (ui (step (Settle (length (inflight w)) net) (step Submit w))))
      = history_with_input (ui w).
Proof.
  intros Hg. rewrite step_Submit_accepted by done.
  fold (history_with_input (ui w)). generalize (history_with_input (ui w)) as h.
  intros h.
  split; [done|]. split.
  - eexists. split; [done|]. simpl. split; [done|].
    rewrite slice_last_25. split; [done|].
    split; [rewrite length_drop; lia|].
    intros H30. rewrite H30. split; [done|]. rewrite length_drop. lia.
  - intros net.
    edestruct step_Settle_some as (t & log & -> & _);
      [apply inflight_last|].
    simpl. by rewrite take_app_length.
Qed.

Lemma C6_payload_30_turns_witness :
  length (history_with_input (ui long_conversation)) = 30%nat
  ∧ ∃ req,
      network (step Submit long_conversation) = [req]
      ∧ body_messages req = drop 5 (history_with_input (ui long_conversation))
      ∧ length (body_messages req) = 25%nat
      ∧ length (messages (ui (step Submit long_conversation))) = 30%nat.
Proof.
  split; [reflexivity|].
  destruct (C6_payload_is_last_25 long_conversation)
    as (Hstore & (req & Hnet & _ & _ & _ & H30) & _); [reflexivity|].
  exists req. destruct H30 as [Hbody Hlen]; [reflexivity|].
  split; [exact Hnet|]. split; [exact Hbody|]. split; [exact Hlen|].
  rewrite Hstore. reflexivity.
Defined.

(** C7: after any sequence of toggles, input changes, submissions and
    settlements, the first stored turn is the system turn with the configured
    prompt. *)
Theorem C7_system_turn_first (es : list Event) :
  messages (ui (run es initial_world)) !! 0%nat
    = Some {| role := system; content := CHAT_SYSTEM_PROMPT |}.
Proof.
  rewrite <- head_lookup.
  apply (reachable_invariant _ (reachable_run es)).
Qed.

(** C8: in every state the visible list is the stored sequence with the
    system turns removed and the other turns in their order; it is a function
    of the stored sequence, so two states that store the same turns show the
    same list. *)
Theorem C8_visible_projection (s : State) :
  visibleMessages s = without_system (messages s)
  ∧ sublist (visibleMessages s) (messages s)
  ∧ Forall (λ t, role t ≠ system) (visibleMessages s)
  ∧ (∀ t, t ∈ messages s → role t ≠ system → t ∈ visibleMessages s)
  ∧ (∀ s', messages s' = messages s → visibleMessages s' = visibleMessages s).
Proof.
  unfold visibleMessages. split; [|split; [|split; [|split]]].
  - induction (messages s) as [|t l IH]; [done|].
    rewrite filter_cons. simpl. rewrite <- IH.
    destruct (decide (role t ≠ system)) as [Hrole|Hrole];
      destruct (role t); try done; by destruct Hrole.
  - apply sublist_filter.
  - apply Forall_forall. by intros t [? _]%list_elem_of_filter.
  - intros t Ht Hrole. by apply list_elem_of_filter.
  - by intros s' ->.
Qed.

(** C9: a toggle flips [isOpen]; it appends the greeting, one assistant turn,
    when the widget was closed and nothing was visible, and leaves the stored
    turns as they were when the widget was open or something was visible. *)
Theorem C9_welcome_on_first_open (w : World) :
  isOpen (ui (step Toggle w)) = negb (isOpen (ui w))
  ∧ messages (ui (step Toggle w))
    = (if negb (isOpen (ui w)) && bool_decide (visibleMessages (ui w) = [])
       then messages (ui w) ++ [welcomeMessage]
       else messages (ui w))
  ∧ role welcomeMessage = assistant.
Proof. by rewrite step_Toggle. Qed.

(** Only an input change puts text into an empty input. *)
Lemma input_stays_empty (es : list Event) (w : World) :
  input (ui w) = [] →
  forallb (λ e, negb (is_change e)) es = true →
  input (ui (run es w)) = [].
Proof.
  revert w. induction es as [|e es IH]; intros w Hempty Hes; [done|].
  simpl in Hes. apply andb_true_iff in Hes as [He Hes].
  change (run (e :: es) w) with (run es (step e w)).
  apply IH; [|done].
  destruct e as [|value| |i net]; [| done | |].
  - by rewrite step_Toggle.
  - rewrite step_Submit_rejected; [done|].
    unfold submit_guard. by rewrite Hempty.
  - destruct (inflight w !! i) as [p|] eqn:Hi.
    + by destruct (step_Settle_some w i p net Hi) as (t & log & -> & _).
    + by rewrite step_Settle_none.
Qed.

(** C10: a submission that passes the guard empties the input while its
    request is in flight; the settlement of the request, whatever the
    network delivered, leaves the input as it finds it, so after a request
    that fails the input is empty and not the text that was submitted; the
    input stays empty until the user types again. *)
Theorem C10_input_cleared_not_restored (w : World) :
  submit_guard (ui w) = true →
  input (ui (step Submit w)) = []
  ∧ isSending (ui (step Submit w)) = true
  ∧ JsString.trim (input (ui w)) ≠ []
  ∧ (∃ p, inflight (step Submit w) = inflight w ++ [p]
          ∧ ∀ w' i net,
              inflight w' !! i = Some p →
              input (ui (step (Settle i net) w')) = input (ui w'))
  ∧ (∀ net,
       input (ui (step (Settle (length (inflight w)) net) (step Submit w))) = [])
  ∧ ∀ es,
      forallb (λ e, negb (is_change e)) es = true →
      input (ui (run es (step Submit w))) = [].
Proof.
  intros Hg.
  assert (∀ w' i net p, inflight w' !! i = Some p →
            input (ui (step (Settle i net) w')) = input (ui w')) as Hkeep.
  { intros w' i net p Hi.
    by destruct (step_Settle_some w' i p net Hi) as (t & log & -> & _). }
  split; [|split; [|split; [|split; [|split]]]].
  - by rewrite step_Submit_accepted.
  - by rewrite step_Submit_accepted.
  - unfold submit_guard in Hg. apply andb_true_iff in Hg as [Hne _].
    by destruct (JsString.trim _).
  - rewrite step_Submit_accepted by done. simpl.
    eexists. split; [done|]. intros w' i net Hi. by eapply Hkeep.
  - intros net. erewrite Hkeep.
    + by rewrite step_Submit_accepted.
    + rewrite step_Submit_accepted by done. apply inflight_last.
  - intros es Hes. apply input_stays_empty; [|done].
    by rewrite step_Submit_accepted.
Qed.

Lemma C10_input_cleared_witness :
  input (ui (step Submit hello_typed)) = []
  ∧ ∀ net, input (ui (step (Settle 0 net) (step Submit hello_typed))) = [].
Proof.
  destruct (C10_input_cleared_not_restored hello_typed)
    as (Hclear & _ & _ & _ & Hafter & _); [reflexivity|].
  split; [exact Hclear|exact Hafter].
Defined.

(** * Further properties *)

(** ** [String.prototype.trim] *)

Section Trim.

Implicit Types (s : jsstring) (c : N).

Lemma last_rev {A} (l : list A) : last (rev l) = head l.
Proof. destruct l as [|x l]; [done|]. simpl. apply last_snoc. Qed.

Lemma head_rev {A} (l : list A) : head (rev l) = last l.
Proof. by rewrite <- last_rev, rev_involutive. Qed.

Lemma last_drop {A} (k : nat) (l : list A) :
  (k < length l)%nat → last (drop k l) = last l.
Proof.
  intros Hk. rewrite <- (take_drop k l) at 2. rewrite last_app.
  destruct (last (drop k l)) eqn:Hlast; [done|].
  apply last_None in Hlast. apply (f_equal length) in Hlast.
  rewrite length_drop in Hlast. simpl in Hlast. lia.
Qed.

Lemma trimStart_split s :
  ∃ pre, s = pre ++ JsString.trimStart s ∧ Forall whitespace pre.
Proof.
  induction s as [|c s (pre & Hs & Hpre)]; [by exists []|].
  simpl. destruct (JsString.is_whitespace c) eqn:Hc.
  - exists (c :: pre). split; [simpl; by f_equal|by constructor].
  - by exists [].
Qed.

Lemma trimStart_head s c :
  head (JsString.trimStart s) = Some c → JsString.is_whitespace c = false.
Proof.
  induction s as [|d s IH]; [done|].
  simpl. destruct (JsString.is_whitespace d) eqn:Hd; [done|].
  by intros [= <-].
Qed.

Lemma trimStart_id s :
  (∀ c, head s = Some c → JsString.is_whitespace c = false) →
  JsString.trimStart s = s.
Proof.
  destruct s as [|d s]; [done|]. intros Hhead. simpl.
  by rewrite (Hhead d eq_refl).
Qed.

Lemma trimEnd_split s :
  ∃ post, s = JsString.trimEnd s ++ post ∧ Forall whitespace post.
Proof.
  unfold JsString.trimEnd.
  destruct (trimStart_split (rev s)) as (pre & Hs & Hpre).
  exists (rev pre). split.
  - by rewrite <- rev_app_distr, <- Hs, rev_involutive.
  - by apply List.Forall_rev.
Qed.

Lemma trimEnd_last s c :
  last (JsString.trimEnd s) = Some c → JsString.is_whitespace c = false.
Proof. unfold JsString.trimEnd. rewrite last_rev. apply trimStart_head. Qed.

Lemma trimEnd_head s c :
  head (JsString.trimEnd s) = Some c → head s = Some c.
Proof.
  destruct (trimEnd_split s) as (post & Hs & _).
  destruct (JsString.trimEnd s) as [|d r]; [done|].
  intros Hhead. by rewrite Hs.
Qed.

Lemma trimEnd_id s :
  (∀ c, last s = Some c → JsString.is_whitespace c = false) →
  JsString.trimEnd s = s.
Proof.
  intros Hlast. unfold JsString.trimEnd.
  rewrite trimStart_id; [apply rev_involutive|].
  intros c. rewrite head_rev. apply Hlast.
Qed.

Lemma trim_no_outer_whitespace s : no_outer_whitespace (JsString.trim s).
Proof.
  unfold JsString.trim. split; intros c Hc.
  - apply trimEnd_head in Hc. by apply trimStart_head in Hc.
  - by apply trimEnd_last in Hc.
Qed.

(** [trim] takes whitespace off the two ends and nothing else. *)
Lemma trim_split s :
  ∃ pre post,
    s = pre ++ JsString.trim s ++ post
    ∧ Forall whitespace pre ∧ Forall whitespace post.
Proof.
  destruct (trimStart_split s) as (pre & Hs & Hpre).
  destruct (trimEnd_split (JsString.trimStart s)) as (post & Ht & Hpost).
  exists pre, post. unfold JsString.trim.
  by rewrite <- Ht, <- Hs.
Qed.

Lemma trim_fixed s : no_outer_whitespace s → JsString.trim s = s.
Proof.
  intros [Hhead Hlast]. unfold JsString.trim.
  rewrite trimStart_id by done. by apply trimEnd_id.
Qed.

End Trim.

(** ** The continuation of [handleSubmit], path by path *)

Lemma replyText_nonempty data : replyText data ≠ [].
Proof.
  unfold replyText.
  destruct (truthy data); [|done].
  destruct (get_reply data) as [[| | |reply| |]|]; try done.
  by destruct reply.
Qed.

(** The text of the assistant turn and the console entries, for each way the
    network can settle. *)
Lemma step_Settle_paths (w : World) (i : nat) (p : Pending) (net : Settled Response) :
  inflight w !! i = Some p →
  ∃ txt log,
    step (Settle i net) w =
      {| ui := {| isOpen := isOpen (ui w); isSending := false;
                  input := input (ui w);
                  messages := updatedHistory p
                                ++ [ {| role := assistant; content := txt |} ] |};
         console := console w ++ log;
         network := network w;
         inflight := delete i (inflight w) |}
    ∧ match net with
      | Rejected e => txt = connectionError ∧ log = [ErrorFetchFailed e]
      | Fulfilled r =>
          if ok r then
            match json r with
            | Fulfilled data => txt = replyText data ∧ log = [LogResponseJson data]
            | Rejected e => txt = connectionError ∧ log = [ErrorFetchFailed e]
            end
          else
            match text r with
            | Fulfilled body =>
                txt = connectionError
                ∧ log = [ErrorHttp (status r) body;
                         ErrorFetchFailed (HttpError (status r))]
            | Rejected e => txt = connectionError ∧ log = [ErrorFetchFailed e]
            end
      end.
Proof.
  intros Hi. unfold step. rewrite Hi. unfold_handlers.
  destruct net as [r|e]; simpl.
  - destruct (ok r); simpl.
    + destruct (json r) as [data|e]; simpl; by eexists _, _.
    + destruct (text r) as [body|e]; simpl; [|by eexists _, _].
      eexists _, _. rewrite <- app_assoc. by split.
  - by eexists _, _.
Qed.

Lemma step_Settle_text_nonempty (w : World) (i : nat) (p : Pending)
    (net : Settled Response) :
  inflight w !! i = Some p →
  ∃ txt log,
    step (Settle i net) w =
      {| ui := {| isOpen := isOpen (ui w); isSending := false;
                  input := input (ui w);
                  messages := updatedHistory p
                                ++ [ {| role := assistant; content := txt |} ] |};
         console := console w ++ log;
         network := network w;
         inflight := delete i (inflight w) |}
    ∧ txt ≠ [].
Proof.
  intros Hi.
  destruct (step_Settle_paths w i p net Hi) as (txt & log & Hstep & Hpath).
  exists txt, log. split; [done|].
  destruct net as [r|e].
  - destruct (ok r).
    + destruct (json r); destruct Hpath as [-> _];
        [apply replyText_nonempty|done].
    + by destruct (text r); destruct Hpath as [-> _].
  - by destruct Hpath as [-> _].
Qed.

(** ** What a stored conversation looks like *)

Section Conversation.

Implicit Types (l : list Turn) (t : Turn).

Lemma conversation_head l : conversation l → head l = Some system_turn.
Proof. induction 1; [done|by apply head_snoc]. Qed.

(** The system turn is the first turn and the only one hidden. *)
Lemma conversation_visible l :
  conversation l → l = system_turn :: filter (λ m, role m ≠ system) l.
Proof.
  induction 1 as [|l t _ IH Hrole _ _ _]; [done|].
  rewrite filter_app, filter_cons_True, filter_nil by done.
  by rewrite app_comm_cons, <- IH.
Qed.

Lemma conversation_contents l :
  conversation l → Forall (λ t, content t ≠ []) l.
Proof.
  induction 1 as [|l t _ IH _ Hcontent _ _].
  - by repeat constructor.
  - apply Forall_app. split; [done|by constructor].
Qed.

Lemma conversation_user_trimmed l :
  conversation l →
  Forall (λ t, role t = user → no_outer_whitespace (content t)) l.
Proof.
  induction 1 as [|l t _ IH _ _ Htrim _].
  - by repeat constructor.
  - apply Forall_app. split; [done|by constructor].
Qed.

Lemma conversation_neighbours l i t1 t2 :
  conversation l →
  l !! i = Some t1 → l !! S i = Some t2 →
  role t2 ≠ system ∧ role t1 ≠ role t2.
Proof.
  intros Hl. revert i t1 t2.
  induction Hl as [|l t _ IH Hrole _ _ Hlast]; intros i t1 t2 H1 H2.
  - by destruct i.
  - destruct (decide (S i < length l)%nat) as [Hlt|Hge].
    + rewrite lookup_app_l in H1 by lia. rewrite lookup_app_l in H2 by lia.
      by eapply IH.
    + assert (S i = length l) as Hi.
      { apply lookup_lt_Some in H2. rewrite length_app in H2. simpl in H2. lia. }
      rewrite lookup_app_l in H1 by lia.
      rewrite Hi, list_lookup_middle in H2 by done. injection H2 as <-.
      split; [done|]. apply Hlast.
      rewrite last_lookup, <- Hi. exact H1.
Qed.

End Conversation.

(** ** The shape of the store is kept by every step *)

Lemma conversation_shape_init : conversation_shape initial_world.
Proof.
  split; [apply conversation_start|]. split; [|done].
  unfold awaiting_reply. simpl. split; intros; discriminate.
Qed.

Lemma conversation_shape_step (e : Event) (w : World) :
  invariant w → conversation_shape w → conversation_shape (step e w).
Proof.
  intros [_ Hflight] (Hconv & Hwait & Hcount).
  unfold conversation_shape, awaiting_reply, single_flight in *.
  destruct e as [|value| |i net].
  - (* Toggle *)
    rewrite step_Toggle. simpl.
    destruct (negb (isOpen (ui w))); simpl; [|done].
    destruct (bool_decide_reflect (visibleMessages (ui w) = [])) as [Hvis|_];
      [|done].
    assert (messages (ui w) = [system_turn]) as Hm.
    { rewrite (conversation_visible _ Hconv). unfold visibleMessages in Hvis.
      by rewrite Hvis. }
    assert (isSending (ui w) ≠ true) as Hidle.
    { intros Hbusy%Hwait. by rewrite Hm in Hbusy. }
    split; [|split].
    + apply conversation_turn; try done. rewrite Hm. by intros t' [= <-].
    + rewrite last_snoc. split; [done|discriminate].
    + by rewrite filter_app, length_app, <- Hcount, Nat.add_0_r.
  - (* Change *)
    by rewrite step_Change.
  - (* Submit *)
    destruct (submit_guard (ui w)) eqn:Hg;
      [|by rewrite step_Submit_rejected].
    rewrite step_Submit_accepted by done. simpl.
    unfold submit_guard in Hg. apply andb_true_iff in Hg as [Hne Hidle].
    apply negb_true_iff in Hidle.
    split; [|split].
    + apply conversation_turn; try done.
      * simpl. by destruct (JsString.trim _).
      * intros _. apply trim_no_outer_whitespace.
      * intros t' Ht' Hrole. simpl in Hrole.
        assert (isSending (ui w) = true); [|congruence].
        apply Hwait. by rewrite Ht', <- Hrole.
    + by rewrite last_snoc.
    + rewrite !length_app, filter_app, length_app, Hcount. done.
  - (* Settle *)
    destruct (inflight w !! i) as [p|] eqn:Hi;
      [|by rewrite step_Settle_none].
    destruct (step_Settle_text_nonempty w i p net Hi)
      as (txt & log & -> & Htxt). simpl.
    destruct (inflight w) as [|q [|]]; [done| |done].
    destruct i; [|done]. injection Hi as ->.
    destruct Hflight as (Hbusy & Hm & _). rewrite <- Hm.
    split; [|split].
    + apply conversation_turn; try done.
      intros t' Ht' Hrole. simpl in Hrole.
      apply Hwait in Hbusy. rewrite Ht' in Hbusy. simpl in Hbusy. congruence.
    + rewrite last_snoc. split; discriminate.
    + by rewrite filter_app, length_app, <- Hcount, Nat.add_0_r.
Qed.

Lemma reachable_conversation_shape (w : World) :
  reachable w → conversation_shape w.
Proof.
  induction 1 as [|e w Hw IH]; [apply conversation_shape_init|].
  apply conversation_shape_step; [by apply reachable_invariant|done].
Qed.

(** ** The requests made *)

Lemma submitted_request_well_formed (w : World) :
  submit_guard (ui w) = true →
  well_formed_request
    {| url := CHAT_WORKER_URL; method := units "POST";
       headers := [(units "Content-Type", units "application/json")];
       body_messages := slice (-25) (history_with_input (ui w)) |}.
Proof.
  intros Hg. unfold submit_guard in Hg. apply andb_true_iff in Hg as [Hne _].
  unfold well_formed_request. simpl. rewrite slice_last_25.
  assert (1 ≤ length (history_with_input (ui w)))%nat as Hlen.
  { unfold history_with_input. rewrite length_app. simpl. lia. }
  repeat split; try done.
  - rewrite length_drop. lia.
  - rewrite length_drop. lia.
  - exists (JsString.trim (input (ui w))). split; [|split].
    + rewrite last_drop by lia. apply last_snoc.
    + by destruct (JsString.trim _).
    + apply trim_no_outer_whitespace.
Qed.

Lemma requests_step (e : Event) (w : World) :
  Forall well_formed_request (network w) →
  Forall well_formed_request (network (step e w)).
Proof.
  intros Hreq. destruct e as [|value| |i net].
  - by rewrite step_Toggle.
  - by rewrite step_Change.
  - destruct (submit_guard (ui w)) eqn:Hg;
      [|by rewrite step_Submit_rejected].
    rewrite step_Submit_accepted by done. simpl.
    apply Forall_app. split; [done|]. constructor; [|done].
    by apply submitted_request_well_formed.
  - destruct (inflight w !! i) as [p|] eqn:Hi;
      [|by rewrite step_Settle_none].
    by destruct (step_Settle_some w i p net Hi) as (t & log & -> & _).
Qed.

Lemma reachable_requests (w : World) :
  reachable w → Forall well_formed_request (network w).
Proof.
  induction 1 as [|e w _ IH]; [by constructor|by apply requests_step].
Qed.

(** ** Properties of the reachable worlds *)

(** X1: in every world the widget reaches at most one request is in flight;
    [isSending] is true exactly while one is, and the history its suspended
    handler kept is what the store holds. *)
Theorem X1_single_flight (es : list Event) :
  (length (inflight (run es initial_world)) ≤ 1)%nat
  ∧ (isSending (ui (run es initial_world)) = true
     ↔ inflight (run es initial_world) ≠ [])
  ∧ ∀ p, p ∈ inflight (run es initial_world) →
         updatedHistory p = messages (ui (run es initial_world)).
Proof.
  destruct (reachable_invariant _ (reachable_run es)) as [_ Hflight].
  unfold single_flight in Hflight.
  destruct (inflight (run es initial_world)) as [|p [|]]; [| |done].
  - rewrite Hflight. split; [simpl; lia|]. split; [done|].
    by intros p ?%elem_of_nil.
  - destruct Hflight as (-> & -> & _). split; [done|]. split; [done|].
    by intros q ->%list_elem_of_singleton.
Qed.

(** X2: after the system turn no stored turn is a system turn and no two
    neighbours have the same role, so user and assistant turns alternate; the
    last turn is a user turn exactly while the widget is busy. *)
Theorem X2_roles_alternate (es : list Event) :
  (∀ i t1 t2,
      messages (ui (run es initial_world)) !! i = Some t1 →
      messages (ui (run es initial_world)) !! S i = Some t2 →
      role t2 ≠ system ∧ role t1 ≠ role t2)
  ∧ (isSending (ui (run es initial_world)) = true
     ↔ role <$> last (messages (ui (run es initial_world))) = Some user).
Proof.
  destruct (reachable_conversation_shape _ (reachable_run es))
    as (Hconv & Hwait & _).
  split; [|done]. intros i t1 t2. by apply conversation_neighbours.
Qed.

(** X3: the store is the system turn followed by exactly the visible turns:
    the system prompt is the only turn that is hidden. *)
Theorem X3_only_system_turn_hidden (es : list Event) :
  messages (ui (run es initial_world))
    = system_turn :: visibleMessages (ui (run es initial_world)).
Proof.
  destruct (reachable_conversation_shape _ (reachable_run es)) as (Hconv & _).
  by apply conversation_visible.
Qed.

(** X4: no stored turn has empty content, and no stored user turn starts or
    ends with whitespace. *)
Theorem X4_contents_nonempty_and_trimmed (es : list Event) :
  Forall (λ t, content t ≠ []
               ∧ (role t = user → no_outer_whitespace (content t)))
    (messages (ui (run es initial_world))).
Proof.
  destruct (reachable_conversation_shape _ (reachable_run es)) as (Hconv & _).
  apply Forall_and. split.
  - by apply conversation_contents.
  - by apply conversation_user_trimmed.
Qed.

(** X5: the user turn an accepted submission stores is the input with
    whitespace taken off its two ends and nothing else: the input is
    whitespace, then the stored content, then whitespace. *)
Theorem X5_user_turn_is_trimmed_input (w : World) :
  submit_guard (ui w) = true →
  ∃ pre c post,
    input (ui w) = pre ++ c ++ post
    ∧ Forall whitespace pre ∧ Forall whitespace post
    ∧ c ≠ [] ∧ no_outer_whitespace c
    ∧ last (messages (ui (step Submit w))) = Some {| role := user; content := c |}.
Proof.
  intros Hg.
  destruct (trim_split (input (ui w))) as (pre & post & Hsplit & Hpre & Hpost).
  exists pre, (JsString.trim (input (ui w))), post.
  split; [done|]. split; [done|]. split; [done|].
  split; [|split].
  - unfold submit_guard in Hg. apply andb_true_iff in Hg as [Hne _].
    by destruct (JsString.trim _).
  - apply trim_no_outer_whitespace.
  - rewrite step_Submit_accepted by done. apply last_snoc.
Qed.

Lemma X5_user_turn_witness :
  ∃ pre c post,
    units "  Hello there " = pre ++ c ++ post
    ∧ Forall whitespace pre ∧ Forall whitespace post
    ∧ c ≠ [] ∧ no_outer_whitespace c
    ∧ last (messages (ui (step Submit
              (step (Change (units "  Hello there ")) initial_world))))
      = Some {| role := user; content := c |}.
Proof.
  apply (X5_user_turn_is_trimmed_input
           (step (Change (units "  Hello there ")) initial_world)).
  reflexivity.
Defined.

(** X6: every request the widget has made goes to [CHAT_WORKER_URL] by POST
    with a JSON content type, carries between 1 and 25 turns, and ends with a
    user turn whose content is not empty and is trimmed. *)
Theorem X6_requests_well_formed (es : list Event) :
  Forall well_formed_request (network (run es initial_world)).
Proof. apply reachable_requests, reachable_run. Qed.

(** X7: the widget has made as many requests as there are user turns in the
    store: one per accepted submission, none repeated. *)
Theorem X7_one_request_per_user_turn (es : list Event) :
  length (network (run es initial_world))
    = length (filter (λ t, role t = user) (messages (ui (run es initial_world)))).
Proof.
  by destruct (reachable_conversation_shape _ (reachable_run es)) as (_ & _ & ?).
Qed.

(** X8: the request of an accepted submission carries the whole history,
    system prompt first, while the history has at most 25 turns; once it has
    more, the request carries 25 turns and the system prompt is not among
    them. *)
Theorem X8_system_prompt_leaves_payload (es : list Event) :
  submit_guard (ui (run es initial_world)) = true →
  ∃ req,
    last (network (step Submit (run es initial_world))) = Some req
    ∧ ((length (history_with_input (ui (run es initial_world))) ≤ 25)%nat →
       body_messages req = history_with_input (ui (run es initial_world))
       ∧ head (body_messages req) = Some system_turn)
    ∧ ((25 < length (history_with_input (ui (run es initial_world))))%nat →
       length (body_messages req) = 25%nat
       ∧ Forall (λ t, role t ≠ system) (body_messages req)).
Proof.
  destruct (reachable_conversation_shape _ (reachable_run es)) as (Hconv & _).
  generalize dependent (run es initial_world). intros w Hconv Hg.
  rewrite step_Submit_accepted by done. simpl.
  fold (history_with_input (ui w)).
  eexists. split; [apply last_snoc|]. simpl. rewrite slice_last_25.
  assert (head (history_with_input (ui w)) = Some system_turn) as Hhead.
  { by apply head_snoc, conversation_head. }
  split; intros Hlen.
  - rewrite Nat.min_l, Nat.sub_diag by done. by rewrite drop_0.
  - split; [rewrite length_drop; lia|].
    unfold history_with_input in *. rewrite (conversation_visible _ Hconv) in *.
    simpl in Hlen.
    replace (_ - _)%nat with (S (length (filter (λ m, role m ≠ system)
                                          (messages (ui w)) ++
                                   [ {| role := user;
                                        content := JsString.trim (input (ui w)) |} ])
                                 - 25))%nat
      by (simpl; lia).
    simpl. apply Forall_drop, Forall_app. split.
    + apply Forall_forall. by intros t [? _]%list_elem_of_filter.
    + by constructor.
Qed.

Lemma X8_system_prompt_dropped_witness :
  ∃ req,
    last (network (step Submit (run long_chat_events initial_world))) = Some req
    ∧ length (body_messages req) = 25%nat
    ∧ Forall (λ t, role t ≠ system) (body_messages req).
Proof.
  destruct (X8_system_prompt_leaves_payload long_chat_events)
    as (req & Hlast & _ & Hlong); [reflexivity|].
  exists req. split; [exact Hlast|]. apply Hlong. vm_compute. lia.
Defined.

(** ** The outcome of a request *)

(** X9: when the response is 2xx and its parsed body has a non-empty string
    [reply], the assistant turn is that string, unchanged, and the console
    gets one [console.log] of the body and no [console.error]. *)
Theorem X9_reply_stored_verbatim
    (w : World) (i : nat) (p : Pending) (r : Response) (data : JSValue)
    (reply : jsstring) :
  inflight w !! i = Some p →
  ok r = true →
  json r = Fulfilled data →
  get_reply data = Some (JString reply) →
  reply ≠ [] →
  messages (ui (step (Settle i (Fulfilled r)) w))
    = updatedHistory p ++ [ {| role := assistant; content := reply |} ]
  ∧ console (step (Settle i (Fulfilled r)) w) = console w ++ [LogResponseJson data].
Proof.
  intros Hi Hok Hjson Hreply Hne.
  destruct (step_Settle_paths w i p (Fulfilled r) Hi)
    as (txt & log & -> & Hpath).
  rewrite Hok, Hjson in Hpath. destruct Hpath as [-> ->]. simpl.
  split; [|done]. do 3 f_equal.
  unfold replyText. rewrite Hreply.
  destruct data; try done. simpl. by destruct reply.
Qed.

Lemma X9_reply_stored_witness :
  messages (ui (step (Settle 0 (Fulfilled hi_there)) hello_submitted))
    = hello_history ++ [ {| role := assistant; content := units "Hi there" |} ]
  ∧ console (step (Settle 0 (Fulfilled hi_there)) hello_submitted)
    = console hello_submitted
        ++ [LogResponseJson (JObject [(units "reply", JString (units "Hi there"))])].
Proof.
  apply (X9_reply_stored_verbatim
           hello_submitted 0 {| updatedHistory := hello_history |} hi_there
           (JObject [(units "reply", JString (units "Hi there"))])
           (units "Hi there")); try reflexivity.
  discriminate.
Defined.

(** X10: when [fetch] itself rejects, the assistant turn is the
    connection-error text and the console gets one [console.error] that
    carries the rejection. *)
Theorem X10_transport_failure
    (w : World) (i : nat) (p : Pending) (e : JSError) :
  inflight w !! i = Some p →
  messages (ui (step (Settle i (Rejected e)) w))
    = updatedHistory p ++ [ {| role := assistant; content := connectionError |} ]
  ∧ console (step (Settle i (Rejected e)) w) = console w ++ [ErrorFetchFailed e].
Proof.
  intros Hi.
  destruct (step_Settle_paths w i p (Rejected e) Hi)
    as (txt & log & -> & -> & ->).
  done.
Qed.

Lemma X10_transport_failure_witness :
  messages (ui (step (Settle 0 (Rejected (Rejection (units "TypeError"))))
                  hello_submitted))
    = hello_history ++ [ {| role := assistant; content := connectionError |} ]
  ∧ console (step (Settle 0 (Rejected (Rejection (units "TypeError"))))
               hello_submitted)
    = console hello_submitted ++ [ErrorFetchFailed (Rejection (units "TypeError"))].
Proof.
  apply (X10_transport_failure
           hello_submitted 0 {| updatedHistory := hello_history |}
           (Rejection (units "TypeError"))).
  reflexivity.
Defined.

(** X11: for a response outside 200-299 whose body can be read, the console
    gets the status with the body and then the thrown HTTP error; when the
    body cannot be read, the console gets only that rejection and the status
    is not written. *)
Theorem X11_http_error_diagnostics
    (w : World) (i : nat) (p : Pending) (r : Response) :
  inflight w !! i = Some p →
  ok r = false →
  console (step (Settle i (Fulfilled r)) w)
    = console w ++
        match text r with
        | Fulfilled body =>
            [ErrorHttp (status r) body; ErrorFetchFailed (HttpError (status r))]
        | Rejected e => [ErrorFetchFailed e]
        end.
Proof.
  intros Hi Hok.
  destruct (step_Settle_paths w i p (Fulfilled r) Hi)
    as (txt & log & -> & Hpath).
  rewrite Hok in Hpath. simpl.
  by destruct (text r); destruct Hpath as [_ ->].
Qed.

Lemma X11_http_error_diagnostics_witness :
  console (step (Settle 0 (Fulfilled http_500)) hello_submitted)
    = console hello_submitted ++
        [ErrorHttp 500 (units "Internal Server Error");
         ErrorFetchFailed (HttpError 500)].
Proof.
  apply (X11_http_error_diagnostics
           hello_submitted 0 {| updatedHistory := hello_history |} http_500);
    reflexivity.
Defined.

(** ** Steps and the network *)


(** ** Toggles *)

(** X13: two toggles in a row bring [isOpen] back and change nothing else,
    except that the greeting is appended, once, when nothing was visible. *)
Theorem X13_toggle_twice (w : World) :
  step Toggle (step Toggle w) =
    {| ui := {| isOpen := isOpen (ui w); isSending := isSending (ui w);
                input := input (ui w);
                messages :=
                  if bool_decide (visibleMessages (ui w) = [])
                  then messages (ui w) ++ [welcomeMessage]
                  else messages (ui w) |};
       console := console w; network := network w; inflight := inflight w |}.
Proof.
  rewrite !step_Toggle. simpl. unfold visibleMessages. simpl.
  destruct (isOpen (ui w)); simpl;
    destruct (bool_decide_reflect
                (filter (λ m, role m ≠ system) (messages (ui w)) = []))
      as [Hvis|Hvis]; by simpl.
Qed.

Lemma isOpen_step (e : Event) (w : World) :
  isOpen (ui (step e w))
    = if is_toggle e then negb (isOpen (ui w)) else isOpen (ui w).
Proof.
  destruct e as [|value| |i net]; simpl is_toggle.
  - by rewrite step_Toggle.
  - by rewrite step_Change.
  - destruct (submit_guard (ui w)) eqn:Hg.
    + by rewrite step_Submit_accepted.
    + by rewrite step_Submit_rejected.
  - destruct (inflight w !! i) as [p|] eqn:Hi.
    + by destruct (step_Settle_some w i p net Hi) as (t & log & -> & _).
    + by rewrite step_Settle_none.
Qed.

(** X14: only toggles open and close the popup: after any events it is open
    exactly when the number of toggles among them is odd. *)
Theorem X14_open_iff_odd_toggles (es : list Event) :
  isOpen (ui (run es initial_world)) = Nat.odd (length (filter is_toggle es)).
Proof.
  induction es as [|e es IH] using rev_ind; [done|].
  rewrite run_snoc, isOpen_step, IH, filter_app, length_app.
  destruct e; simpl; rewrite ?Nat.add_0_r; try done.
  by rewrite Nat.add_1_r, Nat.odd_succ, <- Nat.negb_odd.
Qed.

(** ** What is rendered *)

Lemma units_inj (a b : string) : units a = units b → a = b.
Proof.
  unfold JsString.units. intros H.
  assert (∀ l, List.map ascii_of_N (List.map N_of_ascii l) = l) as Hback.
  { induction l as [|c l IH]; [done|]. simpl.
    by rewrite ascii_N_embedding, IH. }
  apply (f_equal (List.map ascii_of_N)) in H. rewrite !Hback in H.
  apply (f_equal string_of_list_ascii) in H.
  by rewrite !string_of_list_ascii_of_string in H.
Qed.

Lemma index_string_inj (i j : nat) : index_string i = index_string j → i = j.
Proof.
  intros H%units_inj.
  apply (f_equal NilEmpty.uint_of_string) in H.
  rewrite !NilEmpty.usu in H. injection H as H.
  apply (f_equal Nat.of_uint) in H.
  by rewrite !DecimalNat.Unsigned.of_to in H.
Qed.

Lemma role_name_head (r : Role) (rest : jsstring) :
  head (role_name r ++ rest)
    = Some (match r with system => 115 | user => 117 | assistant => 97 end)%N.
Proof. by destruct r. Qed.

Lemma message_row_key_inj (i j : nat) (m1 m2 : Turn) :
  key (message_row i m1) = key (message_row j m2) → i = j.
Proof.
  simpl. intros H.
  assert (role m1 = role m2) as Hrole.
  { apply (f_equal head) in H. rewrite !role_name_head in H.
    by destruct (role m1), (role m2). }
  rewrite Hrole in H. apply app_inv_head in H. injection H as H.
  by apply index_string_inj.
Qed.

Lemma row_keys_NoDup (l : list Turn) : NoDup (key <$> imap message_row l).
Proof.
  apply NoDup_alt. intros i j k Hi Hj.
  rewrite list_lookup_fmap, list_lookup_imap in Hi, Hj.
  destruct (l !! i) as [m1|]; [|done]. destruct (l !! j) as [m2|]; [|done].
  simpl in Hi, Hj. injection Hi as Hi. injection Hj as Hj.
  apply (message_row_key_inj i j m1 m2). simpl. congruence.
Qed.

(** X15: the rows of the message list have pairwise different keys, whatever
    the state. *)
Theorem X15_row_keys_distinct (s : State) (pop : Popup) :
  render s = Some pop → NoDup (key <$> rows pop).
Proof.
  unfold render. destruct (isOpen s); [|done].
  intros [= <-]. apply row_keys_NoDup.
Qed.

Lemma X15_row_keys_distinct_witness :
  ∃ pop, render (ui hello_submitted) = Some pop
         ∧ length (rows pop) = 2%nat
         ∧ NoDup (key <$> rows pop).
Proof.
  eexists. split; [reflexivity|]. split; [reflexivity|].
  eapply (X15_row_keys_distinct (ui hello_submitted)). reflexivity.
Defined.

(** X16: in a world the widget reaches, the popup is rendered exactly when
    [isOpen]; it then has one row for each stored turn after the system turn,
    in order and with that turn's text, user turns in the user style and all
    others in the bot style, and the textarea and the submit button are
    disabled exactly while a request is in flight. *)
Theorem X16_render_of_reachable (es : list Event) :
  match render (ui (run es initial_world)) with
  | None => isOpen (ui (run es initial_world)) = false
  | Some pop =>
      isOpen (ui (run es initial_world)) = true
      ∧ rows pop = imap message_row (tail (messages (ui (run es initial_world))))
      ∧ markdown <$> rows pop
        = content <$> tail (messages (ui (run es initial_world)))
      ∧ textarea_value pop = input (ui (run es initial_world))
      ∧ textarea_disabled pop = bool_decide (inflight (run es initial_world) ≠ [])
      ∧ submit_disabled pop = bool_decide (inflight (run es initial_world) ≠ [])
  end.
Proof.
  destruct (reachable_invariant _ (reachable_run es)) as [_ Hflight].
  destruct (reachable_conversation_shape _ (reachable_run es)) as (Hconv & _).
  apply conversation_visible in Hconv.
  generalize dependent (run es initial_world). intros w Hflight Hconv.
  unfold render. destruct (isOpen (ui w)); [|done]. simpl.
  assert (tail (messages (ui w)) = visibleMessages (ui w)) as ->
    by by rewrite Hconv.
  assert (isSending (ui w) = bool_decide (inflight w ≠ [])) as ->.
  { unfold single_flight in Hflight.
    destruct (inflight w) as [|p [|]]; [done| |done].
    by destruct Hflight as (-> & _). }
  repeat split.
  apply list_eq. intros i.
  rewrite !list_lookup_fmap, list_lookup_imap.
  by destruct (visibleMessages (ui w) !! i).
Qed.

(** ** The auto-scroll effect *)

Lemma visible_snoc (l : list Turn) (t : Turn) :
  role t ≠ system →
  filter (λ m, role m ≠ system) (l ++ [t])
    = filter (λ m, role m ≠ system) l ++ [t].
Proof. intros Hrole. by rewrite filter_app, filter_cons_True, filter_nil. Qed.

Lemma effect_runs_snoc (prev next : State) (t : Turn) :
  role t ≠ system →
  messages next = messages prev ++ [t] →
  effect_runs prev next = true.
Proof.
  intros Hrole Hm. unfold effect_runs, visibleMessages.
  rewrite Hm, visible_snoc, length_app by done. simpl.
  apply negb_true_iff, Nat.eqb_neq. lia.
Qed.

(** X17: while the popup is open in a world the widget reaches, an accepted
    submission and the settlement of the request in flight each make the
    effect run and scroll the message list to its bottom. *)
Theorem X17_new_turn_scrolls (es : list Event) (e : Event) :
  isOpen (ui (run es initial_world)) = true →
  (e = Submit ∧ submit_guard (ui (run es initial_world)) = true)
  ∨ (∃ i net p, e = Settle i net ∧ inflight (run es initial_world) !! i = Some p) →
  scrolls_to_bottom (ui (run es initial_world)) (ui (step e (run es initial_world)))
    = true.
Proof.
  destruct (reachable_invariant _ (reachable_run es)) as [_ Hflight].
  generalize dependent (run es initial_world). intros w Hflight Hopen He.
  unfold scrolls_to_bottom, ref_attached. rewrite isOpen_step.
  destruct He as [[-> Hg]|(i & net & p & -> & Hi)];
    cbn [is_toggle]; rewrite Hopen, andb_true_r.
  - eapply effect_runs_snoc; [|by rewrite step_Submit_accepted]. done.
  - destruct (step_Settle_some w i p net Hi) as (t & log & -> & Ht).
    apply (effect_runs_snoc _ _ t); [by rewrite Ht|]. simpl.
    unfold single_flight in Hflight.
    destruct (inflight w) as [|q [|]]; [done| |done].
    destruct i; [|done]. injection Hi as ->.
    by destruct Hflight as (_ & -> & _).
Qed.

Lemma X17_new_turn_scrolls_witness :
  scrolls_to_bottom
    (ui (run [Toggle; Change (units "Hello"); Submit] initial_world))
    (ui (step (Settle 0 (Fulfilled hi_there))
           (run [Toggle; Change (units "Hello"); Submit] initial_world)))
    = true.
Proof.
  apply (X17_new_turn_scrolls [Toggle; Change (units "Hello"); Submit]).
  - reflexivity.
  - right. exists 0%nat, (Fulfilled hi_there), {| updatedHistory := hello_history |}.
    split; reflexivity.
Defined.

Lemma toggle_scrolls (w : World) :
  scrolls_to_bottom (ui w) (ui (step Toggle w))
    = negb (isOpen (ui w)) && bool_decide (visibleMessages (ui w) = []).
Proof.
  rewrite step_Toggle.
  unfold scrolls_to_bottom, effect_runs, ref_attached, visibleMessages. simpl.
  destruct (isOpen (ui w)); simpl.
  - by rewrite Nat.eqb_refl.
  - destruct (bool_decide_reflect
                (filter (λ m, role m ≠ system) (messages (ui w)) = []))
      as [Hvis|Hvis]; simpl.
    + rewrite visible_snoc, Hvis by done. done.
    + by rewrite Nat.eqb_refl.
Qed.

(** X18: a toggle scrolls the message list only when it is the one that
    appends the greeting; opening the popup again, with turns to show, does
    not run the effect. *)
Theorem X18_toggle_scrolls_on_first_open_only (w : World) :
  scrolls_to_bottom (ui w) (ui (step Toggle w))
    = negb (isOpen (ui w)) && bool_decide (visibleMessages (ui w) = []).
Proof. apply toggle_scrolls. Qed.

(** X19: a reply that arrives while the popup is closed is not scrolled to:
    not when it arrives, since the message list is not rendered, and not when
    the popup is opened afterwards, since the number of visible turns does
    not change then. *)
Theorem X19_reply_while_closed_not_scrolled
    (w : World) (i : nat) (p : Pending) (net : Settled Response) :
  isOpen (ui w) = false →
  inflight w !! i = Some p →
  scrolls_to_bottom (ui w) (ui (step (Settle i net) w)) = false
  ∧ isOpen (ui (step Toggle (step (Settle i net) w))) = true
  ∧ scrolls_to_bottom (ui (step (Settle i net) w))
      (ui (step Toggle (step (Settle i net) w))) = false.
Proof.
  intros Hclosed Hi.
  rewrite toggle_scrolls.
  unfold scrolls_to_bottom, ref_attached. rewrite !isOpen_step.
  cbn [is_toggle]. rewrite Hclosed, andb_false_r.
  split; [done|]. split; [done|].
  destruct (step_Settle_some w i p net Hi) as (t & log & -> & Ht).
  unfold visibleMessages. simpl.
  rewrite visible_snoc by by rewrite Ht.
  rewrite bool_decide_eq_false_2; [done|].
  by intros [_ ?]%app_eq_nil.
Qed.

Lemma X19_reply_while_closed_witness :
  scrolls_to_bottom
    (ui (run [Toggle; Change (units "Hello"); Submit; Toggle] initial_world))
    (ui (step (Settle 0 (Fulfilled hi_there))
           (run [Toggle; Change (units "Hello"); Submit; Toggle] initial_world)))
    = false
  ∧ isOpen (ui (step Toggle (step (Settle 0 (Fulfilled hi_there))
           (run [Toggle; Change (units "Hello"); Submit; Toggle] initial_world))))
    = true
  ∧ scrolls_to_bottom
      (ui (step (Settle 0 (Fulfilled hi_there))
             (run [Toggle; Change (units "Hello"); Submit; Toggle] initial_world)))
      (ui (step Toggle (step (Settle 0 (Fulfilled hi_there))
             (run [Toggle; Change (units "Hello"); Submit; Toggle] initial_world))))
    = false.
Proof.
  apply (X19_reply_while_closed_not_scrolled
           (run [Toggle; Change (units "Hello"); Submit; Toggle] initial_world)
           0 {| updatedHistory := hello_history |} (Fulfilled hi_there));
    reflexivity.
Defined.
